(** * The exported interface of [examples/native-cmake/native/src/mylib.h]

    The header is ten lines of preprocessor directives and one declaration.
    It is embedded here as its text; what it declares is obtained by running
    a small C preprocessor and a declaration parser over that text, for an
    arbitrary table of predefined macros. *)

From Stdlib Require Import Ascii String.
From stdpp Require Import base option list gmap strings fin_maps.

Local Open Scope string_scope.

(** ** The source text *)

Module Source.

(** The double quote and the line feed. *)
Definition dq : string := String "034"%char EmptyString.
Definition nl : string := String "010"%char EmptyString.

(** The lines of [mylib.h], in order. The file has no final line feed. *)
Definition mylib_h_lines : list string :=
  [ "#pragma once"
  ; ""
  ; "#ifdef _WIN32"
  ; "  #define MYLIB_EXPORT __declspec(dllexport)"
  ; "#else"
  ; "  #define MYLIB_EXPORT __attribute__((visibility(" ++ dq ++ "default" ++ dq ++ ")))"
  ; "#endif"
  ; ""
  ; "extern " ++ dq ++ "C" ++ dq ++ " {"
  ; "    MYLIB_EXPORT int mylib_add(int a, int b);"
  ; "}" ].

Fixpoint join_lines (ls : list string) : string :=
  match ls with
  | [] => ""
  | [l] => l
  | l :: rest => l ++ nl ++ join_lines rest
  end.

(** The file as one string. *)
Definition mylib_h : string := join_lines mylib_h_lines.

(** The name under which the header is included. *)
Definition mylib_h_name : string := "mylib.h".

(** The only file of the repository that is modelled. *)
Definition file_system (name : string) : option string :=
  if decide (name = mylib_h_name) then Some mylib_h else None.

End Source.

(** ** Lexing *)

Module Lexer.

(** Preprocessing tokens: identifiers and keywords, string literals,
    numbers, and one-character punctuators. [mylib.h] has no comment, no
    character constant, no escape in a string and no line continuation, and
    the lexer knows none of them. [TSpace] stands for white space between
    two tokens; it is kept only in replacement lists, where it decides
    whether two definitions of a macro are the same. *)
Inductive token : Type :=
| TId (s : string)
| TStr (s : string)
| TNum (s : string)
| TPunct (c : ascii)
| TSpace.

#[global] Instance token_eq_dec : EqDecision token.
Proof. solve_decision. Defined.

Definition code (c : ascii) : nat := nat_of_ascii c.

Definition is_space (c : ascii) : bool :=
  (code c =? 32)%nat || (code c =? 9)%nat || (code c =? 13)%nat.

Definition is_digit (c : ascii) : bool :=
  (48 <=? code c)%nat && (code c <=? 57)%nat.

Definition is_ident_start (c : ascii) : bool :=
  ((65 <=? code c)%nat && (code c <=? 90)%nat)
  || ((97 <=? code c)%nat && (code c <=? 122)%nat)
  || (code c =? 95)%nat.

Definition is_ident_char (c : ascii) : bool :=
  is_ident_start c || is_digit c.

Definition is_quote (c : ascii) : bool := (code c =? 34)%nat.

Definition is_newline (c : ascii) : bool := (code c =? 10)%nat.

Definition snoc (acc : string) (c : ascii) : string :=
  acc ++ String c EmptyString.

(** Physical lines: the text is cut at every line feed. *)
Fixpoint split_lines_from (acc : string) (s : string) : list string :=
  match s with
  | EmptyString => [acc]
  | String c rest =>
      if is_newline c then acc :: split_lines_from "" rest
      else split_lines_from (snoc acc c) rest
  end.

Definition split_lines (s : string) : list string := split_lines_from "" s.

(** What the lexer is in the middle of. *)
Inductive lex_mode : Type :=
| LIdle
| LIdent (acc : string)
| LNumber (acc : string)
| LString (acc : string).

(** The token that a mode left open at the end of a line amounts to. *)
Definition flush (m : lex_mode) : list token :=
  match m with
  | LIdle => []
  | LIdent acc => [TId acc]
  | LNumber acc => [TNum acc]
  | LString acc => [TStr acc]
  end.

(** A character met outside any token: the mode it opens, and the
    punctuator it is when it opens none. *)
Definition begin_token (c : ascii) : lex_mode * list token :=
  if is_space c then (LIdle, [])
  else if is_quote c then (LString "", [])
  else if is_ident_start c then (LIdent (String c EmptyString), [])
  else if is_digit c then (LNumber (String c EmptyString), [])
  else (LIdle, [TPunct c]).

Fixpoint lex_from (m : lex_mode) (s : string) : list token :=
  match s with
  | EmptyString => flush m
  | String c rest =>
      match m with
      | LString acc =>
          if is_quote c then TStr acc :: lex_from LIdle rest
          else lex_from (LString (snoc acc c)) rest
      | LIdent acc =>
          if is_ident_char c then lex_from (LIdent (snoc acc c)) rest
          else TId acc :: (begin_token c).2 ++ lex_from (begin_token c).1 rest
      | LNumber acc =>
          if is_ident_char c then lex_from (LNumber (snoc acc c)) rest
          else TNum acc :: (begin_token c).2 ++ lex_from (begin_token c).1 rest
      | LIdle => (begin_token c).2 ++ lex_from (begin_token c).1 rest
      end
  end.

Definition lex_line (s : string) : list token := lex_from LIdle s.

(** The same lexer, keeping a [TSpace] for every white-space character
    outside a string. *)
Definition begin_spaced (c : ascii) : lex_mode * list token :=
  if is_space c then (LIdle, [TSpace]) else begin_token c.

Fixpoint lex_spaced_from (m : lex_mode) (s : string) : list token :=
  match s with
  | EmptyString => flush m
  | String c rest =>
      match m with
      | LString acc =>
          if is_quote c then TStr acc :: lex_spaced_from LIdle rest
          else lex_spaced_from (LString (snoc acc c)) rest
      | LIdent acc =>
          if is_ident_char c then lex_spaced_from (LIdent (snoc acc c)) rest
          else TId acc :: (begin_spaced c).2
                 ++ lex_spaced_from (begin_spaced c).1 rest
      | LNumber acc =>
          if is_ident_char c then lex_spaced_from (LNumber (snoc acc c)) rest
          else TNum acc :: (begin_spaced c).2
                 ++ lex_spaced_from (begin_spaced c).1 rest
      | LIdle => (begin_spaced c).2 ++ lex_spaced_from (begin_spaced c).1 rest
      end
  end.

Definition lex_spaced (s : string) : list token := lex_spaced_from LIdle s.

Definition is_blank (t : token) : bool :=
  match t with
  | TSpace => true
  | _ => false
  end.

(** The tokens without the white space between them. *)
Definition unspaced (ts : list token) : list token :=
  filter (fun t => is_blank t = false) ts.

Fixpoint drop_blanks (ts : list token) : list token :=
  match ts with
  | TSpace :: rest => drop_blanks rest
  | _ => ts
  end.

(** [gap] tells that white space was met since the last token. *)
Fixpoint squeeze_from (gap : bool) (ts : list token) : list token :=
  match ts with
  | [] => []
  | TSpace :: rest => squeeze_from true rest
  | t :: rest => (if gap then [TSpace] else []) ++ t :: squeeze_from false rest
  end.

(** A replacement list as the preprocessor compares it: no white space
    before the first token or after the last, and any white space between
    two tokens counted as one separation. *)
Definition squeeze (ts : list token) : list token :=
  squeeze_from false (drop_blanks ts).

(** The identifiers among some tokens. *)
Definition idents (ts : list token) : list string :=
  omap (fun t => match t with TId x => Some x | _ => None end) ts.

End Lexer.

(** ** Preprocessing *)

Module Preprocessor.
Import Lexer.

(** The kinds of line the preprocessor tells apart. *)
Inductive directive : Type :=
| PragmaOnce
| Ifdef (x : string)
| Ifndef (x : string)
| Else
| Endif
| Define (x : string) (body : list token)
| Undef (x : string)
| Text (ts : list token)
| Unknown (ts : list token).

Definition is_hash (c : ascii) : bool := (code c =? 35)%nat.

(** A line whose first token is [#] is a directive; any other line is
    text. The line is given without its white space; the replacement list
    of a [#define] is read again with it in [directive_of_line]. *)
Definition classify (ts : list token) : directive :=
  match ts with
  | TPunct c :: rest =>
      if is_hash c then
        match rest with
        | [] => Text []
        | TId d :: args =>
            if String.eqb d "pragma" then
              match args with
              | [TId o] => if String.eqb o "once" then PragmaOnce else Unknown ts
              | _ => Unknown ts
              end
            else if String.eqb d "ifdef" then
              match args with [TId x] => Ifdef x | _ => Unknown ts end
            else if String.eqb d "ifndef" then
              match args with [TId x] => Ifndef x | _ => Unknown ts end
            else if String.eqb d "else" then
              match args with [] => Else | _ => Unknown ts end
            else if String.eqb d "endif" then
              match args with [] => Endif | _ => Unknown ts end
            else if String.eqb d "define" then
              match args with TId x :: body => Define x body | _ => Unknown ts end
            else if String.eqb d "undef" then
              match args with [TId x] => Undef x | _ => Unknown ts end
            else Unknown ts
        | _ => Unknown ts
        end
      else Text ts
  | _ => Text ts
  end.

(** What the preprocessor reports. *)
Inductive diagnostic : Type :=
| Redefined (x : string)
| ElseWithoutIf
| ElseAfterElse
| EndifWithoutIf
| UnterminatedIf (file : string)
| UnknownDirective (ts : list token)
| FileNotFound (file : string).

#[global] Instance diagnostic_eq_dec : EqDecision diagnostic.
Proof. solve_decision. Defined.

(** One open conditional: whether its current group is kept, whether the
    text around it is kept, and whether its [#else] was seen. *)
Record cond : Type := Cond { live : bool; outer : bool; else_seen : bool }.

(** The state of a translation unit while it is preprocessed: the macro
    table, the files marked [#pragma once], the tokens produced so far
    and the diagnostics. *)
Record pp_state : Type := PPState {
  macros : gmap string (list token);
  once : gset string;
  out : list token;
  diags : list diagnostic
}.

Definition defined (m : gmap string (list token)) (x : string) : bool :=
  match m !! x with Some _ => true | None => false end.

Definition add_diag (d : diagnostic) (st : pp_state) : pp_state :=
  PPState (macros st) (once st) (out st) (diags st ++ [d]).

Definition add_once (file : string) (st : pp_state) : pp_state :=
  PPState (macros st) ({[ file ]} ∪ once st) (out st) (diags st).

Definition emit (ts : list token) (st : pp_state) : pp_state :=
  PPState (macros st) (once st) (out st ++ ts) (diags st).

(** A macro may be defined again only with the same replacement list:
    the same tokens in the same order, with white space between the same
    tokens. *)
Definition clashes (m : gmap string (list token)) (x : string)
    (body : list token) : bool :=
  match m !! x with
  | Some old => negb (bool_decide (squeeze old = squeeze body))
  | None => false
  end.

Definition define (x : string) (body : list token) (st : pp_state) : pp_state :=
  PPState (<[ x := body ]> (macros st)) (once st) (out st)
          (if clashes (macros st) x body then diags st ++ [Redefined x]
           else diags st).

Definition undef (x : string) (st : pp_state) : pp_state :=
  PPState (delete x (macros st)) (once st) (out st) (diags st).

(** Macro replacement with rescanning. A name is not replaced again
    inside its own replacement ([hide]); each level of nesting hides one
    more name, so [fuel] above the number of macros is never used up. The
    white space of a replacement list is not copied to the output. *)
Fixpoint expand (fuel : nat) (m : gmap string (list token))
    (hide : list string) (ts : list token) : list token :=
  match fuel with
  | O => ts
  | S fuel' =>
      flat_map
        (fun t =>
           match t with
           | TId x =>
               if bool_decide (x ∈ hide) then [t]
               else match m !! x with
                    | Some body => expand fuel' m (x :: hide) (unspaced body)
                    | None => [t]
                    end
           | _ => [t]
           end)
        ts
  end.

Definition expand_line (m : gmap string (list token)) (ts : list token)
    : list token :=
  expand (S (size m)) m [] ts.

(** Whether the text at the current nesting of conditionals is kept. *)
Definition enabled (cs : list cond) : bool :=
  match cs with
  | [] => true
  | c :: _ => live c
  end.

(** One line of [file], under the open conditionals [cs]. *)
Definition pp_step (file : string) (acc : list cond * pp_state)
    (d : directive) : list cond * pp_state :=
  let cs := acc.1 in
  let st := acc.2 in
  match d with
  | Ifdef x =>
      (Cond (enabled cs && defined (macros st) x) (enabled cs) false :: cs, st)
  | Ifndef x =>
      (Cond (enabled cs && negb (defined (macros st) x)) (enabled cs) false :: cs, st)
  | Else =>
      match cs with
      | [] => (cs, add_diag ElseWithoutIf st)
      | c :: cs' =>
          if else_seen c then (cs, add_diag ElseAfterElse st)
          else (Cond (outer c && negb (live c)) (outer c) true :: cs', st)
      end
  | Endif =>
      match cs with
      | [] => (cs, add_diag EndifWithoutIf st)
      | _ :: cs' => (cs', st)
      end
  | PragmaOnce => (cs, if enabled cs then add_once file st else st)
  | Define x body => (cs, if enabled cs then define x body st else st)
  | Undef x => (cs, if enabled cs then undef x st else st)
  | Text ts =>
      (cs, if enabled cs then emit (expand_line (macros st) ts) st else st)
  | Unknown ts =>
      (cs, if enabled cs then add_diag (UnknownDirective ts) st else st)
  end.

(** A whole file. Conditionals must be closed in the file that opens
    them. *)
Definition pp_lines (file : string) (ds : list directive) (st : pp_state)
    : pp_state :=
  let r := foldl (pp_step file) ([], st) ds in
  match r.1 with
  | [] => r.2
  | _ :: _ => add_diag (UnterminatedIf file) r.2
  end.

Definition is_open_paren (c : ascii) : bool := (code c =? 40)%nat.

(** What is left of a line after its first [n] tokens and the white space
    before each of them. *)
Fixpoint skip_tokens (n : nat) (ts : list token) {struct ts} : list token :=
  match n, ts with
  | O, _ => ts
  | _, [] => []
  | _, TSpace :: rest => skip_tokens n rest
  | S n', _ :: rest => skip_tokens n' rest
  end.

(** The replacement list of a [#define] line, with its white space: what
    follows [#], [define] and the name. A parenthesis right after the name
    opens the parameters of a function-like macro, which is another kind
    of definition. *)
Definition define_body (spaced : list token) : option (list token) :=
  match skip_tokens 3 spaced with
  | TPunct c :: rest =>
      if is_open_paren c then None else Some (squeeze (TPunct c :: rest))
  | rest => Some (squeeze rest)
  end.

(** The directive on one line. *)
Definition directive_of_line (l : string) : directive :=
  match classify (lex_line l) with
  | Define x _ =>
      match define_body (lex_spaced l) with
      | Some body => Define x body
      | None => Unknown (lex_line l)
      end
  | d => d
  end.

Definition directives_of (text : string) : list directive :=
  map directive_of_line (split_lines text).

(** [#include]: a file marked [#pragma once] is skipped when it is
    included again. *)
Definition include_file (fs : string -> option string) (name : string)
    (st : pp_state) : pp_state :=
  if bool_decide (name ∈ once st) then st
  else match fs name with
       | Some text => pp_lines name (directives_of text) st
       | None => add_diag (FileNotFound name) st
       end.

(** A translation unit that includes the files [names] in turn, compiled
    with the predefined macros [env]. *)
Definition initial (env : gmap string (list token)) : pp_state :=
  PPState env ∅ [] [].

Definition preprocess (fs : string -> option string)
    (env : gmap string (list token)) (names : list string) : pp_state :=
  foldl (fun st name => include_file fs name st) (initial env) names.

End Preprocessor.

(** ** Declarations *)

Module Declarations.
Import Lexer.

Inductive ctype : Type :=
| TyVoid
| TyChar
| TyInt
| TyLong
| TyFloat
| TyDouble
| TyPtr (t : ctype)
| TyRef (t : ctype).

Inductive linkage : Type := LinkC | LinkCxx.

(** The two spellings of an attribute that the header uses. *)
Inductive attribute : Type :=
| Declspec (what : string)
| Attribute (name : string) (arg : option string).

Record param : Type := Param { p_type : ctype; p_name : option string }.

(** What a header can declare at file scope. *)
Inductive entity : Type :=
| EFunction (l : linkage) (attrs : list attribute) (ret : ctype)
    (name : string) (params : list param)
| EVariable (l : linkage) (attrs : list attribute) (t : ctype)
    (name : string)
| EType (name : string).

#[global] Instance ctype_eq_dec : EqDecision ctype.
Proof. solve_decision. Defined.
#[global] Instance linkage_eq_dec : EqDecision linkage.
Proof. solve_decision. Defined.
#[global] Instance attribute_eq_dec : EqDecision attribute.
Proof. solve_decision. Defined.
#[global] Instance param_eq_dec : EqDecision param.
Proof. solve_decision. Defined.
#[global] Instance entity_eq_dec : EqDecision entity.
Proof. solve_decision. Defined.

Definition is_lparen (c : ascii) : bool := (code c =? 40)%nat.
Definition is_rparen (c : ascii) : bool := (code c =? 41)%nat.
Definition is_star (c : ascii) : bool := (code c =? 42)%nat.
Definition is_amp (c : ascii) : bool := (code c =? 38)%nat.
Definition is_comma (c : ascii) : bool := (code c =? 44)%nat.
Definition is_semi (c : ascii) : bool := (code c =? 59)%nat.
Definition is_lbrace (c : ascii) : bool := (code c =? 123)%nat.
Definition is_rbrace (c : ascii) : bool := (code c =? 125)%nat.

Definition base_type (x : string) : option ctype :=
  if String.eqb x "void" then Some TyVoid
  else if String.eqb x "char" then Some TyChar
  else if String.eqb x "int" then Some TyInt
  else if String.eqb x "long" then Some TyLong
  else if String.eqb x "float" then Some TyFloat
  else if String.eqb x "double" then Some TyDouble
  else None.

Definition linkage_of (l : string) : option linkage :=
  if String.eqb l "C" then Some LinkC
  else if String.eqb l "C++" then Some LinkCxx
  else None.

(** [*] and [&] after a base type. *)
Fixpoint parse_ptrs (t : ctype) (ts : list token) : ctype * list token :=
  match ts with
  | TPunct c :: rest =>
      if is_star c then parse_ptrs (TyPtr t) rest
      else if is_amp c then (TyRef t, rest)
      else (t, ts)
  | _ => (t, ts)
  end.

Definition parse_type (ts : list token) : option (ctype * list token) :=
  match ts with
  | TId x :: rest => t ← base_type x; Some (parse_ptrs t rest)
  | _ => None
  end.

(** Leading [__declspec(x)], [__attribute__((x))] and
    [__attribute__((x("s")))]. *)
Fixpoint parse_attrs (ts : list token) : list attribute * list token :=
  match ts with
  | TId k :: TPunct p1 :: ts2 =>
      if negb (is_lparen p1) then ([], ts)
      else
        match ts2 with
        | TId x :: TPunct p2 :: rest =>
            if String.eqb k "__declspec" && is_rparen p2
            then (Declspec x :: (parse_attrs rest).1, (parse_attrs rest).2)
            else ([], ts)
        | TPunct p2 :: TId x :: TPunct p3 :: ts3 =>
            if negb (String.eqb k "__attribute__" && is_lparen p2) then ([], ts)
            else if is_rparen p3 then
              match ts3 with
              | TPunct p4 :: rest =>
                  if is_rparen p4
                  then (Attribute x None :: (parse_attrs rest).1,
                        (parse_attrs rest).2)
                  else ([], ts)
              | _ => ([], ts)
              end
            else if is_lparen p3 then
              match ts3 with
              | TStr s :: TPunct p4 :: TPunct p5 :: TPunct p6 :: rest =>
                  if is_rparen p4 && is_rparen p5 && is_rparen p6
                  then (Attribute x (Some s) :: (parse_attrs rest).1,
                        (parse_attrs rest).2)
                  else ([], ts)
              | _ => ([], ts)
              end
            else ([], ts)
        | _ => ([], ts)
        end
  | _ => ([], ts)
  end.

Definition parse_param (ts : list token) : option (param * list token) :=
  '(t, rest) ← parse_type ts;
  match rest with
  | TId x :: rest' => Some (Param t (Some x), rest')
  | _ => Some (Param t None, rest)
  end.

(** Parameters separated by commas, up to the closing parenthesis. *)
Fixpoint parse_param_list (fuel : nat) (ts : list token)
    : option (list param * list token) :=
  match fuel with
  | O => None
  | S fuel' =>
      '(p, rest) ← parse_param ts;
      match rest with
      | TPunct c :: rest' =>
          if is_comma c then
            '(ps, r) ← parse_param_list fuel' rest'; Some (p :: ps, r)
          else if is_rparen c then Some ([p], rest')
          else None
      | _ => None
      end
  end.

(** What follows the opening parenthesis: [)], [void)] or a list. *)
Definition parse_params (ts : list token) : option (list param * list token) :=
  match ts with
  | TPunct c :: rest =>
      if is_rparen c then Some ([], rest) else None
  | TId v :: TPunct c :: rest =>
      if String.eqb v "void" && is_rparen c then Some ([], rest)
      else parse_param_list (length ts) ts
  | _ => parse_param_list (length ts) ts
  end.

(** A variable or function declaration after its attributes. *)
Definition parse_declarator (l : linkage) (attrs : list attribute)
    (ts : list token) : option (entity * list token) :=
  '(t, ts2) ← parse_type ts;
  match ts2 with
  | TId n :: TPunct c :: rest =>
      if is_semi c then Some (EVariable l attrs t n, rest)
      else if is_lparen c then
        '(ps, ts4) ← parse_params rest;
        match ts4 with
        | TPunct s :: ts5 =>
            if is_semi s then Some (EFunction l attrs t n ps, ts5) else None
        | _ => None
        end
      else None
  | _ => None
  end.

(** One declaration, under the linkage [l] of the enclosing block. *)
Definition parse_entity (l : linkage) (ts : list token)
    : option (entity * list token) :=
  let attrs := (parse_attrs ts).1 in
  let ts1 := (parse_attrs ts).2 in
  match ts1 with
  | TId k :: TId n :: TPunct c :: rest =>
      if String.eqb k "struct" && is_semi c then Some (EType n, rest)
      else parse_declarator l attrs ts1
  | _ => parse_declarator l attrs ts1
  end.

(** The linkage in force: that of the innermost [extern] block, and C++
    linkage outside any. *)
Definition current (ctx : list linkage) : linkage :=
  match ctx with
  | [] => LinkCxx
  | l :: _ => l
  end.

Fixpoint parse_items (fuel : nat) (ctx : list linkage) (ts : list token)
    : option (list entity) :=
  match fuel with
  | O => None
  | S fuel' =>
      match ts with
      | [] => match ctx with [] => Some [] | _ :: _ => None end
      | TPunct c :: rest =>
          if is_rbrace c then
            match ctx with
            | [] => None
            | _ :: ctx' => parse_items fuel' ctx' rest
            end
          else None
      | TId k :: TStr s :: TPunct c :: rest =>
          if String.eqb k "extern" && is_lbrace c then
            l ← linkage_of s; parse_items fuel' (l :: ctx) rest
          else None
      | _ =>
          '(e, rest) ← parse_entity (current ctx) ts;
          es ← parse_items fuel' ctx rest;
          Some (e :: es)
      end
  end.

(** The declarations of a preprocessed translation unit; [None] when it
    is not a sequence of declarations. *)
Definition parse (ts : list token) : option (list entity) :=
  parse_items (S (length ts)) [] ts.

End Declarations.

(** ** What including the header gives *)

Module Header.
Import Source Lexer Preprocessor Declarations.

(** The preprocessor state after [mylib.h] was included [n] times. *)
Definition included (env : gmap string (list token)) (n : nat) : pp_state :=
  preprocess file_system env (replicate n mylib_h_name).

(** The declarations a translation unit gets from [n] inclusions. *)
Definition declarations (env : gmap string (list token)) (n : nat)
    : option (list entity) :=
  parse (out (included env n)).

(** The replacement list of [MYLIB_EXPORT] once the header was read. *)
Definition MYLIB_EXPORT (env : gmap string (list token))
    : option (list token) :=
  macros (included env 1) !! "MYLIB_EXPORT".

(** The two export annotations, lexed from their spelling. *)
Definition declspec_tokens : list token :=
  lex_line "__declspec(dllexport)".

Definition attribute_tokens : list token :=
  lex_line ("__attribute__((visibility(" ++ dq ++ "default" ++ dq ++ ")))").

(** The three lines of text of the header, the declaration without its
    leading macro. *)
Definition linkage_open : list token :=
  lex_line ("extern " ++ dq ++ "C" ++ dq ++ " {").

Definition declaration_rest : list token :=
  lex_line "int mylib_add(int a, int b);".

Definition linkage_close : list token := lex_line "}".

(** The annotation chosen by the platform macro. *)
Definition export_tokens (env : gmap string (list token)) : list token :=
  if defined env "_WIN32" then declspec_tokens else attribute_tokens.

Definition export_attribute (env : gmap string (list token)) : attribute :=
  if defined env "_WIN32" then Declspec "dllexport"
  else Attribute "visibility" (Some "default").

(** The identifiers the header writes in its text and in its replacement
    lists, other than the macros it defines itself. *)
Definition words_of (d : directive) : list string :=
  match d with
  | Text ts => idents ts
  | Define _ body => idents body
  | _ => []
  end.

Definition defined_by (d : directive) : list string :=
  match d with
  | Define x _ => [x]
  | _ => []
  end.

Definition header_words : list string :=
  list_difference
    (remove_dups (flat_map words_of (directives_of mylib_h)))
    (flat_map defined_by (directives_of mylib_h)).

(** A configuration is plain when no predefined macro rewrites a word of
    the header (as [-Dint=long] would). *)
Definition plain (env : gmap string (list token)) : bool :=
  forallb (fun x => negb (defined env x)) header_words.

(** The diagnostics of a configuration: only a predefined [MYLIB_EXPORT]
    with another replacement list gives one. *)
Definition header_diags (env : gmap string (list token)) : list diagnostic :=
  if clashes env "MYLIB_EXPORT" (export_tokens env)
  then [Redefined "MYLIB_EXPORT"] else [].

(** The declaration as the interface description gives it: C linkage,
    the export annotation of the platform, [int] result, two [int]
    parameters [a] and [b]. *)
Definition mylib_add_decl (env : gmap string (list token)) : entity :=
  EFunction LinkC [export_attribute env] TyInt "mylib_add"
    [Param TyInt (Some "a"); Param TyInt (Some "b")].

(** Two configurations: a Windows compiler, which predefines [_WIN32],
    and a compiler that predefines nothing the header looks at. *)
Definition windows : gmap string (list token) := {[ "_WIN32" := [TNum "1"] ]}.
Definition elsewhere : gmap string (list token) := ∅.

(** The tokens one inclusion adds, under the macro table [m] that the
    header leaves behind. *)
Definition header_tokens (m : gmap string (list token)) : list token :=
  expand_line m linkage_open
  ++ expand_line m (TId "MYLIB_EXPORT" :: declaration_rest)
  ++ expand_line m linkage_close.

(** One more inclusion of the header, into a translation unit that is in
    the state [st] (other files may have been read before). *)
Definition include_mylib (st : pp_state) : pp_state :=
  include_file file_system mylib_h_name st.

(** The second annotation written with a space after [__attribute__],
    as a replacement list. *)
Definition spaced_attribute : list token :=
  squeeze (lex_spaced ("__attribute__ ((visibility("
                       ++ dq ++ "default" ++ dq ++ ")))")).

(** A configuration that defines [_WIN32] as 0 and is a C++ compiler. *)
Definition windows_zero : gmap string (list token) :=
  {[ "_WIN32" := [TNum "0"]; "__cplusplus" := [TNum "201703L"] ]}.

End Header.

(** ** Properties of the preprocessor on [mylib.h] *)

Module HeaderFacts.
Import Source Lexer Preprocessor Declarations Header.
Local Open Scope list_scope.

(** *** The two lexers *)

Lemma unspaced_app (ts us : list token) :
  unspaced (ts ++ us) = unspaced ts ++ unspaced us.
Proof. apply filter_app. Qed.

Lemma begin_spaced_unspaced (c : ascii) :
  unspaced (begin_spaced c).2 = (begin_token c).2
  ∧ (begin_spaced c).1 = (begin_token c).1.
Proof.
  unfold begin_spaced, begin_token.
  destruct (is_space c); [split; reflexivity |].
  destruct (is_quote c); [split; reflexivity |].
  destruct (is_ident_start c); [split; reflexivity |].
  destruct (is_digit c); split; reflexivity.
Qed.

(** Lexing with white space and dropping it gives the tokens of the plain
    lexer. *)
Lemma unspaced_lex_spaced_from (s : string) :
  ∀ m, unspaced (lex_spaced_from m s) = lex_from m s.
Proof.
  induction s as [| c s IH]; intros m.
  - destruct m; reflexivity.
  - destruct (begin_spaced_unspaced c) as [Htok Hmode].
    destruct m as [| acc | acc | acc]; cbn [lex_spaced_from lex_from].
    + rewrite unspaced_app, Htok, Hmode, IH. reflexivity.
    + destruct (is_ident_char c); [apply IH |].
      change (unspaced (TId acc :: ?l)) with (TId acc :: unspaced l).
      rewrite unspaced_app, Htok, Hmode, IH. reflexivity.
    + destruct (is_ident_char c); [apply IH |].
      change (unspaced (TNum acc :: ?l)) with (TNum acc :: unspaced l).
      rewrite unspaced_app, Htok, Hmode, IH. reflexivity.
    + destruct (is_quote c); [| apply IH].
      change (unspaced (TStr acc :: ?l)) with (TStr acc :: unspaced l).
      rewrite IH. reflexivity.
Qed.

Lemma unspaced_lex_spaced (s : string) : unspaced (lex_spaced s) = lex_line s.
Proof. apply unspaced_lex_spaced_from. Qed.

(** *** The directives of the header *)

Lemma directives_mylib_h :
  directives_of mylib_h =
    [ PragmaOnce; Text []; Ifdef "_WIN32";
      Define "MYLIB_EXPORT" declspec_tokens; Else;
      Define "MYLIB_EXPORT" attribute_tokens; Endif; Text [];
      Text linkage_open; Text (TId "MYLIB_EXPORT" :: declaration_rest);
      Text linkage_close ].
Proof. vm_compute. reflexivity. Qed.

Lemma expand_nil fuel m hide : expand fuel m hide [] = [].
Proof. destruct fuel; reflexivity. Qed.

Lemma expand_line_nil m : expand_line m [] = [].
Proof. apply expand_nil. Qed.

Lemma include_fresh (st : pp_state) :
  mylib_h_name ∉ once st →
  include_file file_system mylib_h_name st =
    PPState (<[ "MYLIB_EXPORT" := export_tokens (macros st) ]> (macros st))
            ({[ mylib_h_name ]} ∪ once st)
            (out st ++ header_tokens
               (<[ "MYLIB_EXPORT" := export_tokens (macros st) ]> (macros st)))
            (diags st ++ header_diags (macros st)).
Proof.
  intros Hfresh. unfold include_file.
  rewrite bool_decide_eq_false_2 by exact Hfresh.
  unfold file_system. rewrite decide_True by reflexivity.
  rewrite directives_mylib_h.
  unfold pp_lines, header_tokens, header_diags, export_tokens.
  destruct st as [m o t d]. cbn [macros once out diags].
  destruct (defined m "_WIN32") eqn:Hwin;
    cbn -[expand_line declspec_tokens attribute_tokens linkage_open
          linkage_close declaration_rest clashes];
    rewrite Hwin;
    cbn -[expand_line declspec_tokens attribute_tokens linkage_open
          linkage_close declaration_rest clashes];
    unfold emit, define, add_once; cbn [macros once out diags];
    rewrite !expand_line_nil, !app_nil_r, <- !app_assoc;
    destruct (clashes m "MYLIB_EXPORT" _); rewrite ?app_nil_r; reflexivity.
Qed.

(** A header marked [#pragma once] is skipped when included again. *)
Lemma include_again (st : pp_state) :
  mylib_h_name ∈ once st →
  include_file file_system mylib_h_name st = st.
Proof.
  intros Hin. unfold include_file.
  rewrite bool_decide_eq_true_2 by exact Hin. reflexivity.
Qed.

Lemma include_marks_once (st : pp_state) :
  mylib_h_name ∈ once (include_file file_system mylib_h_name st).
Proof.
  destruct (decide (mylib_h_name ∈ once st)) as [Hin | Hout].
  - rewrite include_again; assumption.
  - rewrite include_fresh by assumption. cbn [once]. set_solver.
Qed.

Lemma include_idempotent (st : pp_state) :
  include_file file_system mylib_h_name
    (include_file file_system mylib_h_name st)
  = include_file file_system mylib_h_name st.
Proof. apply include_again, include_marks_once. Qed.

Lemma include_many_again (n : nat) (st : pp_state) :
  mylib_h_name ∈ once st →
  foldl (fun st name => include_file file_system name st) st
    (replicate n mylib_h_name) = st.
Proof.
  intros Hin. induction n as [| n IH]; cbn [replicate foldl].
  - reflexivity.
  - rewrite include_again by exact Hin. exact IH.
Qed.

(** The state after one inclusion, for any predefined macros. *)
Lemma included_once (env : gmap string (list token)) :
  included env 1 =
    PPState (<[ "MYLIB_EXPORT" := export_tokens env ]> env)
            {[ mylib_h_name ]}
            (header_tokens (<[ "MYLIB_EXPORT" := export_tokens env ]> env))
            (header_diags env).
Proof.
  unfold included, preprocess. cbn [replicate foldl].
  rewrite include_fresh by (cbn [initial once]; set_solver).
  cbn [initial macros once out diags].
  f_equal.
Qed.

Lemma included_more (env : gmap string (list token)) (n : nat) :
  included env (S n) = included env 1.
Proof.
  unfold included, preprocess. cbn [replicate foldl].
  apply include_many_again, include_marks_once.
Qed.

(** *** Macro replacement in a plain configuration *)

Lemma header_words_eq :
  header_words =
    [ "__declspec"; "dllexport"; "__attribute__"; "visibility"; "extern";
      "mylib_add"; "a"; "int"; "b" ].
Proof. vm_compute. reflexivity. Qed.

Lemma export_not_a_word : "MYLIB_EXPORT" ∉ header_words.
Proof. apply (bool_decide_unpack _). vm_compute. exact I. Qed.

Lemma expand_cons fuel m hide t ts :
  expand (S fuel) m hide (t :: ts) =
    expand (S fuel) m hide [t] ++ expand (S fuel) m hide ts.
Proof. cbn [expand flat_map]. rewrite app_nil_r. reflexivity. Qed.

(** Tokens none of whose identifiers is a macro are left as they are. *)
Lemma expand_inert fuel m hide ts :
  Forall (fun x => m !! x = None) (idents ts) →
  expand fuel m hide ts = ts.
Proof.
  destruct fuel as [| fuel]; [reflexivity |].
  induction ts as [| t ts IH]; intros Hall; [reflexivity |].
  rewrite expand_cons.
  destruct t as [x | s | s | c |]; cbn [idents omap] in Hall.
  2-5: cbn [expand flat_map app]; f_equal; apply IH; exact Hall.
  apply Forall_cons in Hall as [Hx Hrest].
  rewrite IH by exact Hrest.
  cbn [expand flat_map]. rewrite Hx.
  destruct (bool_decide (x ∈ hide)); reflexivity.
Qed.

Lemma expand_macro fuel m x body ts :
  m !! x = Some body →
  expand (S fuel) m [] (TId x :: ts) =
    expand fuel m [x] (unspaced body) ++ expand (S fuel) m [] ts.
Proof.
  intros Hx. rewrite expand_cons. f_equal.
  cbn [expand flat_map]. rewrite Hx.
  rewrite bool_decide_eq_false_2 by apply not_elem_of_nil.
  apply app_nil_r.
Qed.

Ltac words := apply (bool_decide_unpack _); vm_compute; exact I.

Lemma export_tokens_words env :
  Forall (fun x => x ∈ header_words) (idents (export_tokens env)).
Proof. unfold export_tokens. destruct (defined env "_WIN32"); words. Qed.

(** Neither annotation has white space in it. *)
Lemma export_tokens_unspaced env :
  unspaced (export_tokens env) = export_tokens env.
Proof.
  unfold export_tokens. destruct (defined env "_WIN32"); vm_compute; reflexivity.
Qed.


Lemma parse_header_tokens (env : gmap string (list token)) :
  parse (linkage_open ++ export_tokens env ++ declaration_rest ++ linkage_close)
  = Some [mylib_add_decl env].
Proof.
  unfold export_tokens, mylib_add_decl, export_attribute.
  destruct (defined env "_WIN32"); vm_compute; reflexivity.
Qed.

(** *** The two sample configurations *)

Lemma plain_windows : plain windows = true.
Proof. vm_compute. reflexivity. Qed.

Lemma plain_elsewhere : plain elsewhere = true.
Proof. vm_compute. reflexivity. Qed.

Lemma windows_defines_WIN32 : defined windows "_WIN32" = true.
Proof. vm_compute. reflexivity. Qed.

Lemma elsewhere_lacks_WIN32 : defined elsewhere "_WIN32" = false.
Proof. vm_compute. reflexivity. Qed.

(** *** A plain configuration *)

Section Plain.

Variable env : gmap string (list token).
Hypothesis Hplain : plain env = true.

Lemma plain_lookup (x : string) : x ∈ header_words → env !! x = None.
Proof.
  revert Hplain. unfold plain. rewrite forallb_forall. intros Hall Hx.
  apply list_elem_of_In, Hall in Hx.
  unfold defined in Hx. destruct (env !! x); [discriminate | reflexivity].
Qed.

Lemma plain_lookup_after body (x : string) :
  x ∈ header_words → (<[ "MYLIB_EXPORT" := body ]> env) !! x = None.
Proof.
  intros Hx. rewrite lookup_insert_ne.
  - apply plain_lookup. exact Hx.
  - intros <-. exact (export_not_a_word Hx).
Qed.

Lemma words_inert body fuel hide ts :
  Forall (fun x => x ∈ header_words) (idents ts) →
  expand fuel (<[ "MYLIB_EXPORT" := body ]> env) hide ts = ts.
Proof.
  intros Hwords. apply expand_inert.
  eapply Forall_impl; [exact Hwords |].
  intros x Hx. apply plain_lookup_after. exact Hx.
Qed.

(** In a plain configuration the header contributes its text with
    [MYLIB_EXPORT] replaced by the annotation of the platform. *)
Lemma header_tokens_plain :
  header_tokens (<[ "MYLIB_EXPORT" := export_tokens env ]> env) =
    linkage_open ++ export_tokens env ++ declaration_rest ++ linkage_close.
Proof.
  unfold header_tokens, expand_line.
  rewrite (expand_macro _ _ _ (export_tokens env)) by apply lookup_insert_eq.
  rewrite export_tokens_unspaced.
  rewrite (words_inert _ _ _ linkage_open) by words.
  rewrite (words_inert _ _ _ declaration_rest) by words.
  rewrite (words_inert _ _ _ linkage_close) by words.
  rewrite (words_inert _ _ _ (export_tokens env)) by apply export_tokens_words.
  rewrite <- app_assoc. reflexivity.
Qed.

(** What a translation unit that includes the header gets, however often
    it includes it. *)
Lemma declarations_plain (n : nat) :
  declarations env (S n) = Some [mylib_add_decl env].
Proof.
  unfold declarations.
  rewrite included_more, included_once. cbn [out].
  rewrite header_tokens_plain.
  apply parse_header_tokens.
Qed.

End Plain.

End HeaderFacts.

(** ** The interface of the header *)

Module MylibInterface.
Import Source Lexer Preprocessor Declarations Header.
Import HeaderFacts.
Local Open Scope list_scope.

(** C1. In every plain configuration the header yields one declaration:
    the function [mylib_add], with result type [int] and the two [int]
    parameters [a] and [b]. Its tokens stand between [extern "C" {] and
    [}], which gives it C linkage. *)
Theorem header_declares_mylib_add (env : gmap string (list token)) :
  plain env = true →
  out (included env 1)
    = linkage_open ++ export_tokens env ++ declaration_rest ++ linkage_close
  ∧ linkage_open = [TId "extern"; TStr "C"; TPunct "{"%char]
  ∧ linkage_close = [TPunct "}"%char]
  ∧ ∃ attrs,
      declarations env 1
      = Some [EFunction LinkC attrs TyInt "mylib_add"
                [Param TyInt (Some "a"); Param TyInt (Some "b")]].
Proof.
  intros Hplain. repeat split.
  - rewrite included_once. cbn [out]. apply header_tokens_plain, Hplain.
  - exists [export_attribute env]. apply declarations_plain, Hplain.
Qed.

Lemma header_declares_mylib_add_witness :
  plain elsewhere = true
  ∧ ∃ attrs,
      declarations elsewhere 1
      = Some [EFunction LinkC attrs TyInt "mylib_add"
                [Param TyInt (Some "a"); Param TyInt (Some "b")]].
Proof.
  split; [exact plain_elsewhere |].
  apply (header_declares_mylib_add elsewhere plain_elsewhere).
Defined.

(** C2. After the header is read, [MYLIB_EXPORT] stands for
    [__declspec(dllexport)] when [_WIN32] is defined and for
    [__attribute__((visibility("default")))] in every other
    configuration; in a plain configuration that annotation is the one
    attribute of the declaration of [mylib_add]. *)
Theorem export_annotation_by_platform (env : gmap string (list token)) :
  MYLIB_EXPORT env
    = Some (if defined env "_WIN32" then declspec_tokens else attribute_tokens)
  ∧ (plain env = true →
     ∃ l ret ps,
       declarations env 1
       = Some [EFunction l
                 [if defined env "_WIN32" then Declspec "dllexport"
                  else Attribute "visibility" (Some "default")]
                 ret "mylib_add" ps]).
Proof.
  split.
  - unfold MYLIB_EXPORT. rewrite included_once. cbn [macros].
    apply lookup_insert_eq.
  - intros Hplain. eexists _, _, _. apply declarations_plain, Hplain.
Qed.

Lemma export_annotation_by_platform_witness :
  MYLIB_EXPORT windows = Some declspec_tokens
  ∧ MYLIB_EXPORT elsewhere = Some attribute_tokens
  ∧ ∃ l ret ps,
      declarations windows 1
      = Some [EFunction l [Declspec "dllexport"] ret "mylib_add" ps].
Proof.
  pose proof (export_annotation_by_platform windows) as [Hwin Hdecl].
  pose proof (export_annotation_by_platform elsewhere) as [Helse _].
  rewrite windows_defines_WIN32 in Hwin, Hdecl.
  rewrite elsewhere_lacks_WIN32 in Helse.
  split; [exact Hwin |]. split; [exact Helse |].
  exact (Hdecl plain_windows).
Defined.

(** C7. In every plain configuration the header declares one entity and
    no more: the function [mylib_add] with C linkage and the export
    annotation of the platform. It declares no type and no variable, and
    it leaves every macro but [MYLIB_EXPORT] as it found it. *)
Theorem header_interface_is_one_function (env : gmap string (list token)) :
  plain env = true →
  declarations env 1
    = Some [EFunction LinkC [export_attribute env] TyInt "mylib_add"
              [Param TyInt (Some "a"); Param TyInt (Some "b")]]
  ∧ ∀ x, x ≠ "MYLIB_EXPORT" → macros (included env 1) !! x = env !! x.
Proof.
  intros Hplain. split.
  - apply declarations_plain, Hplain.
  - intros x Hx. rewrite included_once. cbn [macros].
    apply lookup_insert_ne. congruence.
Qed.

Lemma header_interface_is_one_function_witness :
  plain windows = true
  ∧ declarations windows 1
    = Some [EFunction LinkC [Declspec "dllexport"] TyInt "mylib_add"
              [Param TyInt (Some "a"); Param TyInt (Some "b")]].
Proof.
  split; [exact plain_windows |].
  pose proof (header_interface_is_one_function windows plain_windows) as [H _].
  unfold export_attribute in H. rewrite windows_defines_WIN32 in H. exact H.
Defined.

(** C8. Whatever macros are predefined, [MYLIB_EXPORT] is defined once
    the header is read, and its replacement list is one of the two
    annotations and not the other: the first exactly when [_WIN32] is
    defined, the second exactly when it is not. *)
Theorem export_macro_exactly_one (env : gmap string (list token)) :
  ∃ body,
    MYLIB_EXPORT env = Some body
    ∧ ((defined env "_WIN32" = true
        ∧ body = declspec_tokens ∧ body ≠ attribute_tokens)
       ∨ (defined env "_WIN32" = false
          ∧ body = attribute_tokens ∧ body ≠ declspec_tokens)).
Proof.
  exists (export_tokens env). split.
  - unfold MYLIB_EXPORT. rewrite included_once. cbn [macros].
    apply lookup_insert_eq.
  - unfold export_tokens. destruct (defined env "_WIN32"); [left | right];
      (split; [reflexivity |]); (split; [reflexivity |]);
      apply (bool_decide_unpack _); vm_compute; exact I.
Qed.

(** C9. Including the header any number of times, at least once, gives
    the same preprocessor state, and so the same declarations, as
    including it once: [#pragma once] marks the file and every later
    inclusion is skipped. Repetition redefines nothing: the diagnostics
    are those of one inclusion, none at all unless [MYLIB_EXPORT] was
    predefined, and a plain configuration still has the one declaration
    of [mylib_add]. *)
Theorem inclusion_is_idempotent (env : gmap string (list token)) (n : nat) :
  included env (S n) = included env 1
  ∧ declarations env (S n) = declarations env 1
  ∧ mylib_h_name ∈ once (included env 1)
  ∧ diags (included env (S n)) = header_diags env
  ∧ (env !! "MYLIB_EXPORT" = None → diags (included env (S n)) = [])
  ∧ (plain env = true → declarations env (S n) = Some [mylib_add_decl env]).
Proof.
  split; [apply included_more |].
  split; [unfold declarations; rewrite included_more; reflexivity |].
  split; [rewrite included_once; cbn [once]; set_solver |].
  split; [rewrite included_more, included_once; reflexivity |].
  split.
  - intros Hnone. rewrite included_more, included_once. cbn [diags].
    unfold header_diags, clashes. rewrite Hnone. reflexivity.
  - intros Hplain. apply declarations_plain, Hplain.
Qed.

Lemma inclusion_is_idempotent_witness :
  included elsewhere 3 = included elsewhere 1
  ∧ declarations elsewhere 3 = declarations elsewhere 1
  ∧ diags (included elsewhere 3) = [].
Proof.
  pose proof (inclusion_is_idempotent elsewhere 2) as (Hst & Hdecl & _ & _ & Hd & _).
  split; [exact Hst |]. split; [exact Hdecl |].
  apply Hd. apply lookup_empty.
Defined.

(** A predefined macro that rewrites a word of the header changes what
    is declared: the hypothesis of a plain configuration is needed. *)
Example not_plain_changes_declaration :
  plain {[ "int" := [TId "long"] ]} = false
  ∧ declarations {[ "int" := [TId "long"] ]} 1
    = Some [EFunction LinkC [Attribute "visibility" (Some "default")] TyLong
              "mylib_add"
              [Param TyLong (Some "a"); Param TyLong (Some "b")]].
Proof. split; vm_compute; reflexivity. Qed.

End MylibInterface.

(** ** The header inside a larger translation unit *)

Module MylibInclusion.
Import Source Lexer Preprocessor Declarations Header.
Import HeaderFacts.
Local Open Scope list_scope.


(** X2. Once the header was included, a later inclusion changes nothing,
    whatever was done to the macros in between: an edit of the state that
    does not forget which files were marked (undefining [MYLIB_EXPORT],
    defining [_WIN32]) is not undone or redone by including again. *)
Theorem later_inclusion_is_skipped (st : pp_state)
    (edit : pp_state → pp_state) :
  (∀ s, once s ⊆ once (edit s)) →
  include_mylib (edit (include_mylib st)) = edit (include_mylib st).
Proof.
  intros Hedit. unfold include_mylib. apply include_again.
  apply Hedit, include_marks_once.
Qed.

Lemma later_inclusion_is_skipped_witness :
  macros (include_mylib (undef "MYLIB_EXPORT" (include_mylib (initial elsewhere))))
    !! "MYLIB_EXPORT" = None.
Proof.
  rewrite (later_inclusion_is_skipped (initial elsewhere) (undef "MYLIB_EXPORT")).
  - apply lookup_delete_eq.
  - intros s. reflexivity.
Defined.


(** A predefinition that differs from the header's only by a space after
    [__attribute__] has the same tokens and is reported all the same; one
    spelled as in the header is not. *)
Example spaced_predefinition_is_reported :
  unspaced spaced_attribute = attribute_tokens
  ∧ diags (included {[ "MYLIB_EXPORT" := spaced_attribute ]} 1)
    = [Redefined "MYLIB_EXPORT"]
  ∧ diags (included {[ "MYLIB_EXPORT" := attribute_tokens ]} 1) = [].
Proof. repeat split; vm_compute; reflexivity. Qed.

(** X4. Of the configuration the header reads only whether [_WIN32] is
    defined: two plain configurations that agree on that give the same
    tokens and the same declarations, however often each includes the
    header. The value of [_WIN32] and every other macro play no part. *)
Theorem only_WIN32_definedness_matters
    (env1 env2 : gmap string (list token)) (n m : nat) :
  plain env1 = true →
  plain env2 = true →
  defined env1 "_WIN32" = defined env2 "_WIN32" →
  out (included env1 (S n)) = out (included env2 (S m))
  ∧ declarations env1 (S n) = declarations env2 (S m).
Proof.
  intros Hp1 Hp2 Hw.
  assert (out (included env1 (S n)) = out (included env2 (S m))) as Hout.
  { rewrite (included_more env1 n), (included_more env2 m).
    rewrite (included_once env1), (included_once env2). cbn [out].
    rewrite (header_tokens_plain env1 Hp1), (header_tokens_plain env2 Hp2).
    unfold export_tokens. rewrite Hw. reflexivity. }
  split; [exact Hout |].
  unfold declarations. rewrite Hout. reflexivity.
Qed.

Lemma plain_windows_zero : plain windows_zero = true.
Proof. vm_compute. reflexivity. Qed.

Lemma windows_zero_defines_WIN32 :
  defined windows "_WIN32" = defined windows_zero "_WIN32".
Proof. vm_compute. reflexivity. Qed.

Lemma only_WIN32_definedness_matters_witness :
  out (included windows 1) = out (included windows_zero 3)
  ∧ declarations windows 1 = declarations windows_zero 3.
Proof.
  exact (only_WIN32_definedness_matters windows windows_zero 0 2
           plain_windows plain_windows_zero windows_zero_defines_WIN32).
Defined.

End MylibInclusion.
